(** * A shallow embedding of [hordak/models.py]

    The Django models of django-hordak are embedded over an explicit store
    (one list per database table).  Money amounts are integers in the
    smallest currency unit (the fields have two decimal places), a single
    currency throughout; dates are day numbers.  Operations that write to
    the database run in a small state-and-error monad; [atomic] is
    [db_transaction.atomic()]: an error rolls every write of the block back. *)

From Stdlib Require Import ZArith List String Bool Lia.
Import ListNotations.
Open Scope Z_scope.

(** ** Data model *)

(** [Account.TYPES]; the [_type] column is a blank-able CharField, so the
    stored value is [option AccountType] ([None] is the empty string). *)
Inductive AccountType := asset | liability | income | expense | equity.

Definition AccountType_eqb (x y : AccountType) : bool :=
  match x, y with
  | asset, asset | liability, liability | income, income
  | expense, expense | equity, equity => true
  | _, _ => false
  end.

(** [Account], an [MPTTModel]: [parent] is the parent's primary key and
    [level] is the depth MPTT maintains (0 for a root node). *)
Record Account := mkAccount {
  acc_pk : nat;
  acc_name : string;
  parent : option nat;
  level : nat;
  code : string;
  _type : option AccountType;
  has_statements : bool
}.

Record Transaction := mkTransaction {
  tx_pk : nat;
  date : Z;
  description : string
}.

Record Leg := mkLeg {
  leg_pk : nat;
  transaction : nat;
  account : nat;
  amount : Z;
  leg_description : string
}.

Record StatementImport := mkStatementImport {
  si_pk : nat;
  bank_account : nat
}.

Record StatementLine := mkStatementLine {
  sl_pk : nat;
  sl_date : Z;
  statement_import : nat;
  sl_amount : Z;
  sl_description : string;
  sl_transaction : option nat
}.

(** The database: one list per table, the next free primary key and the
    clock read by [timezone.now]. *)
Record Store := mkStore {
  accounts : list Account;
  transactions : list Transaction;
  legs : list Leg;
  imports : list StatementImport;
  lines : list StatementLine;
  next_pk : nat;
  today : Z
}.

(** [DEBIT] and [CREDIT]. *)
Inductive LegType := DEBIT | CREDIT.

(** The exceptions of [hordak.exceptions] raised by the models, and
    Django's [DoesNotExist] for a dangling foreign key. *)
Inductive Error :=
| ZeroAmountError
| AccountTypeOnChildNode
| AccountingEquationViolationError (total : Z)
| DoesNotExist.

(** ** The state-and-error monad *)

Definition M (A : Type) : Type := Store -> (Error + A) * Store.

Definition ret {A} (x : A) : M A := fun st => (inr x, st).
Definition bind {A B} (m : M A) (f : A -> M B) : M B :=
  fun st => match m st with
            | (inl e, st') => (inl e, st')
            | (inr x, st') => f x st'
            end.
Definition raise {A} (e : Error) : M A := fun st => (inl e, st).
Definition get : M Store := fun st => (inr st, st).
Definition put (st : Store) : M unit := fun _ => (inr tt, st).

Notation "x <- m ;; k" := (bind m (fun x => k))
  (at level 61, m at next level, right associativity).
Notation "m ;;; k" := (bind m (fun _ => k))
  (at level 61, right associativity).

(** [@db_transaction.atomic()]: on an exception the store is rolled back. *)
Definition atomic {A} (m : M A) : M A :=
  fun st => match m st with
            | (inl e, _) => (inl e, st)
            | (inr x, st') => (inr x, st')
            end.

(** ** Store helpers (queries and inserts) *)

Definition sum_list (xs : list Z) : Z := fold_right Z.add 0 xs.

Definition find_account (st : Store) (pk : nat) : option Account :=
  find (fun a => Nat.eqb (acc_pk a) pk) (accounts st).
Definition find_transaction (st : Store) (pk : nat) : option Transaction :=
  find (fun t => Nat.eqb (tx_pk t) pk) (transactions st).
Definition find_import (st : Store) (pk : nat) : option StatementImport :=
  find (fun i => Nat.eqb (si_pk i) pk) (imports st).

Definition fresh_pk : M nat :=
  fun st => (inr (next_pk st),
             mkStore (accounts st) (transactions st) (legs st) (imports st)
                     (lines st) (S (next_pk st)) (today st)).

Definition set_transactions (st : Store) (ts : list Transaction) : Store :=
  mkStore (accounts st) ts (legs st) (imports st) (lines st) (next_pk st) (today st).
Definition set_legs (st : Store) (ls : list Leg) : Store :=
  mkStore (accounts st) (transactions st) ls (imports st) (lines st) (next_pk st) (today st).
Definition set_lines (st : Store) (ls : list StatementLine) : Store :=
  mkStore (accounts st) (transactions st) (legs st) (imports st) ls (next_pk st) (today st).

(** [Model.save()] on an existing row: replace the row with the same key. *)
Definition update_transaction (t : Transaction) : M unit :=
  st <- get ;;
  put (set_transactions st
         (map (fun t' => if Nat.eqb (tx_pk t') (tx_pk t) then t else t')
              (transactions st))).

Definition update_line (l : StatementLine) : M unit :=
  st <- get ;;
  put (set_lines st
         (map (fun l' => if Nat.eqb (sl_pk l') (sl_pk l) then l else l')
              (lines st))).

(** ** [Account]: the tree (MPTT) *)

Definition is_root_node (a : Account) : bool :=
  match parent a with None => true | Some _ => false end.

(** Walk up the [parent] links; MPTT's [level] bounds the walk. *)
Fixpoint root_from (st : Store) (fuel : nat) (a : Account) : Account :=
  match fuel with
  | O => a
  | S f =>
      match parent a with
      | None => a
      | Some p =>
          match find_account st p with
          | None => a
          | Some pa => root_from st f pa
          end
      end
  end.

Definition get_root (st : Store) (a : Account) : Account :=
  root_from st (level a) a.

(** Primary keys of [get_ancestors(include_self=True)], self first. *)
Fixpoint ancestor_pks (st : Store) (fuel : nat) (a : Account) : list nat :=
  acc_pk a ::
  match fuel with
  | O => []
  | S f =>
      match parent a with
      | None => []
      | Some p =>
          match find_account st p with
          | None => []
          | Some pa => ancestor_pks st f pa
          end
      end
  end.

(** [get_descendants(include_self=True)]: every account of the table that
    has [a] among its ancestors or is [a] itself. *)
Definition get_descendants (st : Store) (a : Account) : list Account :=
  filter (fun d => existsb (Nat.eqb (acc_pk a)) (ancestor_pks st (level d) d))
         (accounts st).

(** [Account.objects.root_nodes()]. *)
Definition root_nodes (st : Store) : list Account :=
  filter is_root_node (accounts st).

(** The [type] property (getter). *)
Definition type (st : Store) (a : Account) : option AccountType :=
  if is_root_node a then _type a else _type (get_root st a).

(** The [type] setter, on the in-memory instance. *)
Definition set_type (a : Account) (value : option AccountType) : Error + Account :=
  if is_root_node a
  then inr (mkAccount (acc_pk a) (acc_name a) (parent a) (level a) (code a)
                      value (has_statements a))
  else inl AccountTypeOnChildNode.

(** The [sign] property. *)
Definition sign (st : Store) (a : Account) : Z :=
  match type st a with
  | Some asset | Some expense => -1
  | _ => 1
  end.

(** ** Balances *)

(** [LegQuerySet.sum_amount]: [aggregate(Sum('amount'))['amount__sum'] or 0];
    the aggregate is [None] on an empty query set. *)
Definition aggregate_sum (ls : list Leg) : option Z :=
  match ls with
  | [] => None
  | _ => Some (sum_list (map amount ls))
  end.

Definition sum_amount (ls : list Leg) : Z :=
  match aggregate_sum ls with
  | Some s => if Z.eqb s 0 then 0 else s
  | None => 0
  end.

(** [legs.filter(transaction__date__lte=as_of)]: a join on the transaction. *)
Definition date_lte (st : Store) (as_of : Z) (l : Leg) : bool :=
  match find_transaction st (transaction l) with
  | Some t => Z.leb (date t) as_of
  | None => false
  end.

(** [account.legs]. *)
Definition account_legs (st : Store) (a : Account) : list Leg :=
  filter (fun l => Nat.eqb (account l) (acc_pk a)) (legs st).

(** [Account.simple_balance(as_of, raw, **kwargs)]; the keyword filters are
    given as predicates on legs, all of which must hold. *)
Definition simple_balance (st : Store) (a : Account) (as_of : option Z)
    (raw : bool) (kwargs : list (Leg -> bool)) : Z :=
  let ls := account_legs st a in
  let ls := match as_of with
            | Some d => filter (date_lte st d) ls
            | None => ls
            end in
  let ls := match kwargs with
            | [] => ls
            | _ => filter (fun l => forallb (fun f => f l) kwargs) ls
            end in
  sum_amount ls * (if raw then 1 else sign st a).

(** [Account.balance(as_of, raw, **kwargs)]. *)
Definition balance (st : Store) (a : Account) (as_of : option Z) (raw : bool)
    (kwargs : list (Leg -> bool)) : Z :=
  sum_list (map (fun d => simple_balance st d as_of raw kwargs)
                (get_descendants st a)).

(** [Account.validate_accounting_equation]. *)
Definition validate_accounting_equation : M unit :=
  st <- get ;;
  let balances := map (fun r => balance st r None true []) (root_nodes st) in
  if Z.eqb (sum_list balances) 0
  then ret tt
  else raise (AccountingEquationViolationError (sum_list balances)).

(** [Transaction.balance]. *)
Definition transaction_legs (st : Store) (t : Transaction) : list Leg :=
  filter (fun l => Nat.eqb (transaction l) (tx_pk t)) (legs st).

Definition transaction_balance (st : Store) (t : Transaction) : Z :=
  sum_amount (transaction_legs st t).

(** ** Writes *)

(** [Transaction.objects.create(kwargs)]: [date] and [description] default
    to today and the empty string. *)
Definition transaction_create (d : option Z) (desc : option string) : M Transaction :=
  pk <- fresh_pk ;;
  st <- get ;;
  let t := mkTransaction pk (match d with Some x => x | None => today st end)
                         (match desc with Some s => s | None => EmptyString end) in
  put (set_transactions st (transactions st ++ [t])) ;;;
  ret t.

(** [Leg.objects.create(transaction=, account=, amount=)], i.e. [Leg.save]. *)
Definition leg_create (tx acc : nat) (amt : Z) : M Leg :=
  if Z.eqb amt 0 then raise ZeroAmountError
  else
    pk <- fresh_pk ;;
    st <- get ;;
    let l := mkLeg pk tx acc amt EmptyString in
    put (set_legs st (legs st ++ [l])) ;;;
    ret l.

(** The [Leg.type] property. *)
Definition leg_type (l : Leg) : Error + LegType :=
  if Z.ltb (amount l) 0 then inr DEBIT
  else if Z.gtb (amount l) 0 then inr CREDIT
  else inl ZeroAmountError.

(** [Account.transfer_to(to_account, amount, **transaction_kwargs)]. *)
Definition transfer_to (self to_account : Account) (amt : Z)
    (d : option Z) (desc : option string) : M Transaction :=
  atomic (
    st <- get ;;
    let direction := if Z.eqb (sign st to_account) 1 then -1 else 1 in
    t <- transaction_create d desc ;;
    leg_create (tx_pk t) (acc_pk self) (amt * direction) ;;;
    leg_create (tx_pk t) (acc_pk to_account) (- amt * direction) ;;;
    ret t).

(** [StatementLine.is_reconciled]. *)
Definition is_reconciled (l : StatementLine) : bool :=
  match sl_transaction l with Some _ => true | None => false end.

(** [self.transaction = transaction] on the in-memory line. *)
Definition set_line_transaction (l : StatementLine) (tx : nat) : StatementLine :=
  mkStatementLine (sl_pk l) (sl_date l) (statement_import l) (sl_amount l)
                  (sl_description l) (Some tx).

(** [StatementLine.create_transaction(to_account)]. *)
Definition create_transaction (self : StatementLine) (to_account : Account)
    : M Transaction :=
  atomic (
    st <- get ;;
    match find_import st (statement_import self) with
    | None => raise DoesNotExist
    | Some si =>
        let from_account := bank_account si in
        t <- transaction_create None None ;;
        leg_create (tx_pk t) from_account (sl_amount self * -1) ;;;
        leg_create (tx_pk t) (acc_pk to_account) (- (sl_amount self * -1)) ;;;
        let t' := mkTransaction (tx_pk t) (sl_date self) (description t) in
        update_transaction t' ;;;
        update_line (set_line_transaction self (tx_pk t')) ;;;
        ret t'
    end).

(** A transaction created with its legs, the way the models are used:
    [Transaction.objects.create] and then [Leg.objects.create] for each
    [(account, amount)] pair, inside one [db_transaction.atomic()] block (as
    [transfer_to] does).  The models offer no other way to create a
    transaction with arbitrary legs. *)
Fixpoint create_legs (tx : nat) (ls : list (nat * Z)) : M unit :=
  match ls with
  | [] => ret tt
  | (acc, amt) :: rest => leg_create tx acc amt ;;; create_legs tx rest
  end.

Definition create_transaction_with_legs (d : option Z) (desc : option string)
    (ls : list (nat * Z)) : M Transaction :=
  atomic (
    t <- transaction_create d desc ;;
    create_legs (tx_pk t) ls ;;;
    ret t).

(** Well-formed MPTT tree: a root has level 0 and a child's parent is in the
    table, one level up. *)
Definition tree_wf (st : Store) : Prop :=
  forall a, In a (accounts st) ->
    match parent a with
    | None => level a = 0%nat
    | Some p => exists pa, find_account st p = Some pa /\ S (level pa) = level a
    end.

(** ** Further properties of [Account] and [Leg] *)

(** The accounts of [get_ancestors(include_self=True)], self first. *)
Fixpoint ancestors_from (st : Store) (fuel : nat) (a : Account) : list Account :=
  a ::
  match fuel with
  | O => []
  | S f =>
      match parent a with
      | None => []
      | Some p =>
          match find_account st p with
          | None => []
          | Some pa => ancestors_from st f pa
          end
      end
  end.

(** [get_ancestors(include_self=True)], ordered from the root down. *)
Definition get_ancestors (st : Store) (a : Account) : list Account :=
  rev (ancestors_from st (level a) a).

(** The [full_code] property.  [if not self.pk]: an unsaved instance has no
    primary key; primary key 0, falsy as [None] is, stands for it. *)
Definition full_code (st : Store) (a : Account) : option string :=
  if Nat.eqb (acc_pk a) 0 then None
  else Some (String.concat EmptyString (map code (get_ancestors st a))).

(** [Leg.is_debit] and [Leg.is_credit]: [self.type == DEBIT] (resp. [CREDIT]);
    the [type] property raises on a zero amount. *)
Definition LegType_eqb (x y : LegType) : bool :=
  match x, y with
  | DEBIT, DEBIT | CREDIT, CREDIT => true
  | _, _ => false
  end.

Definition is_debit (l : Leg) : Error + bool :=
  match leg_type l with
  | inl e => inl e
  | inr t => inr (LegType_eqb t DEBIT)
  end.

Definition is_credit (l : Leg) : Error + bool :=
  match leg_type l with
  | inl e => inl e
  | inr t => inr (LegType_eqb t CREDIT)
  end.

(** The sum [validate_accounting_equation] compares with 0. *)
Definition accounting_total (st : Store) : Z :=
  sum_list (map (fun r => balance st r None true []) (root_nodes st)).

(** How many times the account with primary key [pk] is counted by that sum:
    once per root whose descendants include it. *)
Definition root_multiplicity (st : Store) (pk : nat) : Z :=
  sum_list (map (fun r => sum_list (map (fun d => if Nat.eqb (acc_pk d) pk then 1 else 0)
                                        (get_descendants st r)))
                (root_nodes st)).

(** Primary keys are unique in the [Account] table. *)
Definition unique_pks (st : Store) : Prop := NoDup (map acc_pk (accounts st)).

(** ** A sample ledger

    [Bank] (asset, code 1) with a child [Petty], [Sales] (income, code 4) and
    [Expenses] (expense, code 5); one statement import on [Bank] with one
    unreconciled line of -50.00 dated day 5. *)
Definition Bank := mkAccount 1 "Bank" None 0 "1" (Some asset) true.
Definition Sales := mkAccount 2 "Sales" None 0 "4" (Some income) false.
Definition Expenses := mkAccount 3 "Expenses" None 0 "5" (Some expense) false.
Definition Petty := mkAccount 4 "Petty" (Some 1%nat) 1 "1" None false.

Definition line0 : StatementLine := mkStatementLine 11 5 10 (-5000) EmptyString None.

Definition st0 : Store :=
  mkStore [Bank; Sales; Expenses; Petty] [] [] [mkStatementImport 10 1]
          [line0] 20 100.

(** The store after a transaction of two legs that do not balance,
    [(Bank, 10.00)] and [(Sales, -9.00)]. *)
Definition st_unbalanced : Store :=
  mkStore [Bank; Sales; Expenses; Petty] [mkTransaction 20 100 EmptyString]
          [mkLeg 21 20 1 1000 EmptyString; mkLeg 22 20 2 (-900) EmptyString]
          [mkStatementImport 10 1] [line0] 23 100.

(** ** Lemmas on the embedding *)

Lemma sum_amount_spec (ls : list Leg) :
  sum_amount ls = sum_list (map amount ls).
Proof.
  destruct ls as [|l ls]; [reflexivity|].
  unfold sum_amount, aggregate_sum.
  destruct (Z.eqb_spec (sum_list (map amount (l :: ls))) 0) as [E|E];
    [symmetry; exact E | reflexivity].
Qed.

Lemma leg_create_ok (tx acc : nat) (amt : Z) (st : Store) :
  amt <> 0 ->
  leg_create tx acc amt st =
  (inr (mkLeg (next_pk st) tx acc amt EmptyString),
   mkStore (accounts st) (transactions st)
           (legs st ++ [mkLeg (next_pk st) tx acc amt EmptyString])
           (imports st) (lines st) (S (next_pk st)) (today st)).
Proof.
  intros H. unfold leg_create.
  rewrite (proj2 (Z.eqb_neq amt 0) H). reflexivity.
Qed.

Lemma transaction_create_eq (d : option Z) (desc : option string) (st : Store) :
  transaction_create d desc st =
  (inr (mkTransaction (next_pk st)
          (match d with Some x => x | None => today st end)
          (match desc with Some s => s | None => EmptyString end)),
   mkStore (accounts st)
           (transactions st ++
              [mkTransaction (next_pk st)
                 (match d with Some x => x | None => today st end)
                 (match desc with Some s => s | None => EmptyString end)])
           (legs st) (imports st) (lines st) (S (next_pk st)) (today st)).
Proof. reflexivity. Qed.

Lemma root_from_is_root (st : Store) :
  tree_wf st ->
  forall n a, In a (accounts st) -> level a = n ->
  is_root_node (root_from st n a) = true.
Proof.
  intros Hwf n. induction n as [|n IH]; intros a Hin Hl; simpl.
  - specialize (Hwf a Hin). unfold is_root_node.
    destruct (parent a) as [p|]; [|reflexivity].
    destruct Hwf as (pa & _ & Hpa). lia.
  - pose proof (Hwf a Hin) as Ha. unfold is_root_node.
    destruct (parent a) as [p|] eqn:Ep; [|rewrite Ep; reflexivity].
    destruct Ha as (pa & Hf & Hpa). rewrite Hf.
    apply IH; [|lia].
    unfold find_account in Hf. apply find_some in Hf. tauto.
Qed.

Lemma find_transaction_in (st : Store) (pk : nat) (t : Transaction) :
  find_transaction st pk = Some t -> In t (transactions st).
Proof. unfold find_transaction. intros H. apply find_some in H. tauto. Qed.

Lemma st0_wf : tree_wf st0.
Proof.
  intros a Hin. simpl in Hin.
  repeat (destruct Hin as [<-|Hin]; [simpl; try reflexivity|]);
    [eexists; split; reflexivity | contradiction].
Qed.

(** ** Claims *)

(** C1 (code defect): [Leg.type] returns [DEBIT] for a negative amount and
    [CREDIT] for a positive one, although the [amount] field says "Record
    debits as positive, credits as negative"; a zero amount raises
    [ZeroAmountError].  Evaluated here on amounts 5.00, -5.00 and 0. *)
Theorem leg_type_sign_swapped :
  leg_type (mkLeg 0 0 0 500 EmptyString) = inr CREDIT /\
  leg_type (mkLeg 0 0 0 (-500) EmptyString) = inr DEBIT /\
  leg_type (mkLeg 0 0 0 0 EmptyString) = inl ZeroAmountError.
Proof. repeat split. Qed.

(** C5: in a well-formed tree, a non-root account's [type] is the [type] of
    its root ancestor and the [type] setter raises [AccountTypeOnChildNode]
    on it; on a root account the setter stores the value and the getter
    returns it. *)
Theorem account_type_inherited (st : Store) (a : Account) (v : option AccountType) :
  tree_wf st -> In a (accounts st) ->
  (is_root_node a = false ->
     type st a = type st (get_root st a) /\
     set_type a v = inl AccountTypeOnChildNode) /\
  (is_root_node a = true ->
     exists a', set_type a v = inr a' /\ acc_pk a' = acc_pk a /\
                parent a' = parent a /\ type st a' = v).
Proof.
  intros Hwf Hin. split; intros Hr.
  - split.
    + unfold type at 1. rewrite Hr.
      unfold type, get_root. rewrite (root_from_is_root st Hwf (level a) a Hin eq_refl).
      reflexivity.
    + unfold set_type. rewrite Hr. reflexivity.
  - unfold set_type. rewrite Hr.
    eexists; split; [reflexivity|]. repeat split.
    unfold type, is_root_node in *. simpl. destruct (parent a); [discriminate|reflexivity].
Qed.

Lemma account_type_inherited_witness :
  (tree_wf st0 /\ In Petty (accounts st0)) /\
  (type st0 Petty = type st0 (get_root st0 Petty) /\
   set_type Petty (Some income) = inl AccountTypeOnChildNode).
Proof.
  split; [split; [exact st0_wf | simpl; tauto]|].
  apply (proj1 (account_type_inherited st0 Petty (Some income) st0_wf
                  ltac:(simpl; tauto))).
  reflexivity.
Defined.

(** C9: saving a [Leg] whose amount is 0 raises [ZeroAmountError] and leaves
    the store as it was; so does [transfer_to] of amount 0, whose atomic block
    also rolls back the transaction it had created. *)
Theorem leg_zero_amount_rejected (tx acc : nat) (st : Store) :
  leg_create tx acc 0 st = (inl ZeroAmountError, st) /\
  forall self to_account d desc,
    transfer_to self to_account 0 d desc st = (inl ZeroAmountError, st).
Proof. split; [reflexivity | intros; reflexivity]. Qed.

(** C10: [Transaction.balance()] is the sum of the amounts of the
    transaction's legs, and 0 when it has none. *)
Theorem transaction_balance_sum (st : Store) (t : Transaction) :
  transaction_balance st t = sum_list (map amount (transaction_legs st t)) /\
  (transaction_legs st t = [] -> transaction_balance st t = 0).
Proof.
  unfold transaction_balance. split.
  - apply sum_amount_spec.
  - intros E. rewrite E. reflexivity.
Qed.

Lemma transaction_balance_sum_witness :
  transaction_legs st0 (mkTransaction 20 5 EmptyString) = [] /\
  transaction_balance st0 (mkTransaction 20 5 EmptyString) = 0.
Proof.
  split; [reflexivity|].
  apply (proj2 (transaction_balance_sum st0 (mkTransaction 20 5 EmptyString))).
  reflexivity.
Defined.

Lemma sum_list_map_zero {A} (f : A -> Z) (xs : list A) :
  (forall x, In x xs -> f x = 0) -> sum_list (map f xs) = 0.
Proof.
  induction xs as [|x xs IH]; intros H; simpl; [reflexivity|].
  rewrite (H x (or_introl eq_refl)), IH; [reflexivity|].
  intros y Hy. apply H. right. exact Hy.
Qed.

Lemma date_lte_before_all (st : Store) (D : Z) (l : Leg) :
  (forall t, In t (transactions st) -> D < date t) -> date_lte st D l = false.
Proof.
  intros H. unfold date_lte.
  destruct (find_transaction st (transaction l)) as [t|] eqn:E; [|reflexivity].
  apply Z.leb_gt. apply H. apply (find_transaction_in st _ _ E).
Qed.

(** C6: [balance(as_of=D)] is the sum over the account and its descendants
    of [simple_balance(as_of=D)], i.e. of the amounts of the legs posted to
    each of them whose transaction is dated on or before [D] (all legs when
    [D] is [None]), each times 1 ([raw]) or the account's sign; it is 0 for
    a [D] before every transaction and 0 when there are no legs at all. *)
Theorem balance_aggregates_simple_balance (st : Store) (a : Account) (raw : bool) :
  (forall as_of, balance st a as_of raw [] =
     sum_list (map (fun d => simple_balance st d as_of raw []) (get_descendants st a))) /\
  (forall D, balance st a (Some D) raw [] =
     sum_list (map (fun d => sum_list (map amount (filter (date_lte st D) (account_legs st d)))
                             * (if raw then 1 else sign st d))
                   (get_descendants st a))) /\
  balance st a None raw [] =
    sum_list (map (fun d => sum_list (map amount (account_legs st d))
                            * (if raw then 1 else sign st d))
                  (get_descendants st a)) /\
  (forall D, (forall t, In t (transactions st) -> D < date t) ->
     balance st a (Some D) raw [] = 0) /\
  (legs st = [] -> forall as_of, balance st a as_of raw [] = 0).
Proof.
  split; [reflexivity|].
  assert (Hd : forall D, balance st a (Some D) raw [] =
     sum_list (map (fun d => sum_list (map amount (filter (date_lte st D) (account_legs st d)))
                             * (if raw then 1 else sign st d))
                   (get_descendants st a))).
  { intros D. unfold balance, simple_balance. f_equal. apply map_ext. intros d.
    rewrite sum_amount_spec. reflexivity. }
  split; [exact Hd|]. split.
  { unfold balance, simple_balance. f_equal. apply map_ext. intros d.
    rewrite sum_amount_spec. reflexivity. }
  split.
  - intros D HD. rewrite Hd. apply sum_list_map_zero. intros d _.
    induction (account_legs st d) as [|l ls IH]; [reflexivity|].
    simpl. rewrite (date_lte_before_all st D l HD). exact IH.
  - intros Hl as_of. unfold balance. apply sum_list_map_zero. intros d _.
    unfold simple_balance, account_legs. rewrite Hl.
    destruct as_of; reflexivity.
Qed.

Lemma balance_aggregates_simple_balance_witness :
  (forall t, In t (transactions st_unbalanced) -> 99 < date t) /\
  balance st_unbalanced Bank (Some 99) false [] = 0.
Proof.
  assert (H : forall t, In t (transactions st_unbalanced) -> 99 < date t).
  { intros t Ht. simpl in Ht. destruct Ht as [<-|[]]. simpl. lia. }
  split; [exact H|].
  apply (proj1 (proj2 (proj2 (proj2
           (balance_aggregates_simple_balance st_unbalanced Bank false)))) 99 H).
Defined.

(** C8: [validate_accounting_equation] leaves the store as it is, succeeds
    exactly when the raw balances of the root accounts sum to 0, and
    otherwise raises [AccountingEquationViolationError] carrying that sum. *)
Theorem validate_accounting_equation_spec (st : Store) :
  snd (validate_accounting_equation st) = st /\
  (fst (validate_accounting_equation st) = inr tt <->
     sum_list (map (fun r => balance st r None true []) (root_nodes st)) = 0) /\
  (sum_list (map (fun r => balance st r None true []) (root_nodes st)) <> 0 ->
     fst (validate_accounting_equation st) =
     inl (AccountingEquationViolationError
            (sum_list (map (fun r => balance st r None true []) (root_nodes st))))).
Proof.
  unfold validate_accounting_equation, bind, get, ret, raise.
  destruct (Z.eqb_spec (sum_list (map (fun r => balance st r None true []) (root_nodes st))) 0)
    as [E|E]; simpl.
  - split; [reflexivity|]. split; [tauto|]. intros H; contradiction.
  - split; [reflexivity|]. split; [split; intros H; [discriminate | contradiction]|].
    intros _. reflexivity.
Qed.

Lemma validate_accounting_equation_spec_witness :
  sum_list (map (fun r => balance st_unbalanced r None true []) (root_nodes st_unbalanced)) = 100 /\
  fst (validate_accounting_equation st_unbalanced) =
  inl (AccountingEquationViolationError 100).
Proof.
  split; [reflexivity|].
  apply (proj2 (proj2 (validate_accounting_equation_spec st_unbalanced))).
  vm_compute. discriminate.
Defined.

Lemma sign_cases (st : Store) (a : Account) : sign st a = 1 \/ sign st a = -1.
Proof. unfold sign. destruct (type st a) as [[]|]; auto. Qed.

(** C7: [transfer_to] of a positive amount creates one transaction and two
    legs on it, [(self, -amount)] and [(to_account, +amount)] when the sign of
    [to_account] is +1, [(self, +amount)] and [(to_account, -amount)] when it
    is -1 (the sign is -1 exactly for an asset or expense account); the two
    legs sum to 0. *)
Theorem transfer_to_legs (self to_account : Account) (amt : Z)
    (d : option Z) (desc : option string) (st : Store) :
  0 < amt ->
  exists t st',
    transfer_to self to_account amt d desc st = (inr t, st') /\
    transactions st' = transactions st ++ [t] /\
    exists l1 l2,
      legs st' = legs st ++ [l1; l2] /\
      transaction l1 = tx_pk t /\ transaction l2 = tx_pk t /\
      account l1 = acc_pk self /\ account l2 = acc_pk to_account /\
      (sign st to_account = 1 -> amount l1 = - amt /\ amount l2 = amt) /\
      (sign st to_account = -1 -> amount l1 = amt /\ amount l2 = - amt) /\
      (sign st to_account = -1 <->
         type st to_account = Some asset \/ type st to_account = Some expense) /\
      amount l1 + amount l2 = 0.
Proof.
  intros Hpos.
  assert (Htype : sign st to_account = -1 <->
            type st to_account = Some asset \/ type st to_account = Some expense).
  { unfold sign. destruct (type st to_account) as [[]|]; split; intros H;
      try discriminate; try reflexivity; try (destruct H; discriminate); auto. }
  unfold transfer_to, atomic, bind, get, ret.
  rewrite transaction_create_eq.
  destruct (Z.eqb_spec (sign st to_account) 1) as [Hs|Hs].
  - rewrite leg_create_ok by lia. rewrite leg_create_ok by lia.
    do 2 eexists. split; [reflexivity|]. split; [reflexivity|].
    do 2 eexists. split; [simpl; rewrite <- app_assoc; reflexivity|].
    simpl. do 4 (split; [reflexivity|]).
    split; [intros _; lia|]. split; [intros H; lia|]. split; [exact Htype|lia].
  - rewrite leg_create_ok by lia. rewrite leg_create_ok by lia.
    do 2 eexists. split; [reflexivity|]. split; [reflexivity|].
    do 2 eexists. split; [simpl; rewrite <- app_assoc; reflexivity|].
    simpl. do 4 (split; [reflexivity|]).
    split; [intros H; contradiction|]. split; [intros _; lia|].
    split; [exact Htype|lia].
Qed.

Lemma transfer_to_legs_witness :
  0 < 10000 /\
  exists t st',
    transfer_to Bank Sales 10000 None None st0 = (inr t, st') /\
    transactions st' = transactions st0 ++ [t] /\
    exists l1 l2,
      legs st' = legs st0 ++ [l1; l2] /\
      transaction l1 = tx_pk t /\ transaction l2 = tx_pk t /\
      account l1 = acc_pk Bank /\ account l2 = acc_pk Sales /\
      (sign st0 Sales = 1 -> amount l1 = - 10000 /\ amount l2 = 10000) /\
      (sign st0 Sales = -1 -> amount l1 = 10000 /\ amount l2 = - 10000) /\
      (sign st0 Sales = -1 <->
         type st0 Sales = Some asset \/ type st0 Sales = Some expense) /\
      amount l1 + amount l2 = 0.
Proof.
  split; [lia|]. apply transfer_to_legs. lia.
Defined.

Lemma create_transaction_eq (self : StatementLine) (to_account : Account)
    (st : Store) (si : StatementImport) :
  find_import st (statement_import self) = Some si -> sl_amount self <> 0 ->
  let n := next_pk st in
  let t := mkTransaction n (sl_date self) EmptyString in
  create_transaction self to_account st =
  (inr t,
   mkStore (accounts st)
     (map (fun t' => if Nat.eqb (tx_pk t') n then t else t')
          (transactions st ++ [mkTransaction n (today st) EmptyString]))
     (legs st ++ [mkLeg (S n) n (bank_account si) (sl_amount self * -1) EmptyString;
                  mkLeg (S (S n)) n (acc_pk to_account) (- (sl_amount self * -1)) EmptyString])
     (imports st)
     (map (fun l' => if Nat.eqb (sl_pk l') (sl_pk self)
                     then set_line_transaction self n else l') (lines st))
     (S (S (S n))) (today st)).
Proof.
  intros Hi Ha n t.
  unfold create_transaction, atomic, bind, get, ret.
  rewrite Hi, transaction_create_eq.
  rewrite leg_create_ok by lia. rewrite leg_create_ok by lia.
  simpl. rewrite <- app_assoc. reflexivity.
Qed.

Lemma transaction_legs_fresh (ls new : list Leg) (n : nat) :
  (forall l, In l ls -> (transaction l < n)%nat) ->
  Forall (fun l => transaction l = n) new ->
  filter (fun l => Nat.eqb (transaction l) n) (ls ++ new) = new.
Proof.
  intros Hold Hnew. rewrite filter_app.
  replace (filter (fun l => Nat.eqb (transaction l) n) ls) with (@nil Leg).
  - simpl. induction Hnew as [|l new Hl _ IH]; [reflexivity|].
    simpl. rewrite Hl, Nat.eqb_refl, IH. reflexivity.
  - induction ls as [|l ls IH]; [reflexivity|]. simpl.
    assert (Hl := Hold l (or_introl eq_refl)).
    destruct (Nat.eqb_spec (transaction l) n) as [E|E]; [lia|].
    apply IH. intros l' H'. apply Hold. right. exact H'.
Qed.

(** C4 (as the code does it): for a statement line with a nonzero amount [a]
    whose import exists, [create_transaction(to_account)] creates one
    transaction dated with the line's date whose legs are exactly
    [(bank_account, +(a * -1))] and [(to_account, -(a * -1))], and stores the
    line with its [transaction] set to it, so the line is reconciled. *)
Theorem create_transaction_reconciles (self : StatementLine) (to_account : Account)
    (st : Store) (si : StatementImport) :
  find_import st (statement_import self) = Some si -> sl_amount self <> 0 ->
  (forall l, In l (legs st) -> (transaction l < next_pk st)%nat) ->
  exists t st',
    create_transaction self to_account st = (inr t, st') /\
    date t = sl_date self /\
    In t (transactions st') /\
    transaction_legs st' t =
      [mkLeg (S (next_pk st)) (tx_pk t) (bank_account si) (sl_amount self * -1) EmptyString;
       mkLeg (S (S (next_pk st))) (tx_pk t) (acc_pk to_account)
             (- (sl_amount self * -1)) EmptyString] /\
    lines st' = map (fun l' => if Nat.eqb (sl_pk l') (sl_pk self)
                               then set_line_transaction self (tx_pk t) else l')
                    (lines st) /\
    sl_transaction (set_line_transaction self (tx_pk t)) = Some (tx_pk t) /\
    is_reconciled (set_line_transaction self (tx_pk t)) = true.
Proof.
  intros Hi Ha Hfresh.
  rewrite (create_transaction_eq self to_account st si Hi Ha).
  do 2 eexists. split; [reflexivity|]. simpl.
  split; [reflexivity|]. split.
  - apply in_map_iff. exists (mkTransaction (next_pk st) (today st) EmptyString).
    simpl. rewrite Nat.eqb_refl. split; [reflexivity|].
    apply in_or_app. right. left. reflexivity.
  - split; [|split; [reflexivity|split; reflexivity]].
    unfold transaction_legs. simpl.
    apply transaction_legs_fresh; [exact Hfresh|].
    repeat constructor.
Qed.

Lemma create_transaction_reconciles_witness :
  find_import st0 (statement_import line0) = Some (mkStatementImport 10 1) /\
  sl_amount line0 <> 0 /\
  exists t st',
    create_transaction line0 Expenses st0 = (inr t, st') /\
    date t = sl_date line0 /\
    In t (transactions st') /\
    transaction_legs st' t =
      [mkLeg (S (next_pk st0)) (tx_pk t) 1 (sl_amount line0 * -1) EmptyString;
       mkLeg (S (S (next_pk st0))) (tx_pk t) (acc_pk Expenses)
             (- (sl_amount line0 * -1)) EmptyString] /\
    lines st' = map (fun l' => if Nat.eqb (sl_pk l') (sl_pk line0)
                               then set_line_transaction line0 (tx_pk t) else l')
                    (lines st0) /\
    sl_transaction (set_line_transaction line0 (tx_pk t)) = Some (tx_pk t) /\
    is_reconciled (set_line_transaction line0 (tx_pk t)) = true.
Proof.
  split; [reflexivity|]. split; [discriminate|].
  apply (create_transaction_reconciles line0 Expenses st0 (mkStatementImport 10 1)).
  - reflexivity.
  - discriminate.
  - intros l Hl. destruct Hl.
Defined.

(** C4 as stated fails: for the line of -50.00 the bank-account leg is
    +50.00 (that is [+(a * -1)]), not [-(a * -1)] = -50.00, and the
    [to_account] leg is -50.00, not +50.00. *)
Lemma create_transaction_leg_signs_counterexample :
  legs (snd (create_transaction line0 Expenses st0)) =
    [mkLeg 21 20 1 5000 EmptyString; mkLeg 22 20 3 (-5000) EmptyString] /\
  5000 <> - (sl_amount line0 * -1) /\ -5000 <> sl_amount line0 * -1.
Proof. split; [reflexivity|]. split; discriminate. Qed.

(** C2 (as the code does it): [create_transaction] has no guard against a
    line that is already reconciled.  On such a line (with a nonzero amount
    and an existing import) it succeeds, adds one more transaction and two
    more legs on it, [(bank_account, +(a * -1))] and [(to_account, -(a * -1))],
    keeps the earlier transactions, and stores the line with its
    [transaction] replaced by the new one. *)
Theorem create_transaction_on_reconciled_line (self : StatementLine)
    (to_account : Account) (st : Store) (si : StatementImport) (old : nat) :
  sl_transaction self = Some old ->
  find_import st (statement_import self) = Some si -> sl_amount self <> 0 ->
  exists t st',
    create_transaction self to_account st = (inr t, st') /\
    tx_pk t = next_pk st /\
    List.length (transactions st') = S (List.length (transactions st)) /\
    legs st' = legs st ++
      [mkLeg (S (next_pk st)) (tx_pk t) (bank_account si) (sl_amount self * -1) EmptyString;
       mkLeg (S (S (next_pk st))) (tx_pk t) (acc_pk to_account)
             (- (sl_amount self * -1)) EmptyString] /\
    (forall t0, In t0 (transactions st) -> tx_pk t0 <> next_pk st ->
                In t0 (transactions st')) /\
    lines st' = map (fun l' => if Nat.eqb (sl_pk l') (sl_pk self)
                               then set_line_transaction self (tx_pk t) else l')
                    (lines st).
Proof.
  intros _ Hi Ha.
  rewrite (create_transaction_eq self to_account st si Hi Ha).
  do 2 eexists. split; [reflexivity|]. simpl.
  split; [reflexivity|].
  split; [rewrite length_map, length_app; simpl; lia|].
  split; [reflexivity|].
  split; [|reflexivity].
  intros t0 Hin Hpk. apply in_map_iff. exists t0.
  rewrite (proj2 (Nat.eqb_neq _ _) Hpk). split; [reflexivity|].
  apply in_or_app. left. exact Hin.
Qed.

Lemma create_transaction_on_reconciled_line_witness :
  sl_transaction (set_line_transaction line0 20) = Some 20%nat /\
  exists t st',
    create_transaction (set_line_transaction line0 20) Expenses
      (snd (create_transaction line0 Expenses st0)) = (inr t, st') /\
    tx_pk t = next_pk (snd (create_transaction line0 Expenses st0)) /\
    List.length (transactions st') =
      S (List.length (transactions (snd (create_transaction line0 Expenses st0)))) /\
    legs st' = legs (snd (create_transaction line0 Expenses st0)) ++
      [mkLeg (S (next_pk (snd (create_transaction line0 Expenses st0)))) (tx_pk t) 1
             (sl_amount (set_line_transaction line0 20) * -1) EmptyString;
       mkLeg (S (S (next_pk (snd (create_transaction line0 Expenses st0))))) (tx_pk t)
             (acc_pk Expenses) (- (sl_amount (set_line_transaction line0 20) * -1)) EmptyString] /\
    (forall t0, In t0 (transactions (snd (create_transaction line0 Expenses st0))) ->
                tx_pk t0 <> next_pk (snd (create_transaction line0 Expenses st0)) ->
                In t0 (transactions st')) /\
    lines st' = map (fun l' => if Nat.eqb (sl_pk l') (sl_pk (set_line_transaction line0 20))
                               then set_line_transaction (set_line_transaction line0 20) (tx_pk t)
                               else l')
                    (lines (snd (create_transaction line0 Expenses st0))).
Proof.
  split; [reflexivity|].
  apply (create_transaction_on_reconciled_line (set_line_transaction line0 20) Expenses
           (snd (create_transaction line0 Expenses st0)) (mkStatementImport 10 1) 20).
  - reflexivity.
  - reflexivity.
  - discriminate.
Defined.

(** C2 as stated fails: after reconciling the sample line (transaction 20),
    calling [create_transaction] again on the reconciled line succeeds with a
    new transaction 23, the line now points to 23, the ledger holds two
    transactions and the raw balance of [Bank] goes from 50.00 to 100.00. *)
Lemma create_transaction_reconciled_line_counterexample :
  In (set_line_transaction line0 20) (lines (snd (create_transaction line0 Expenses st0))) /\
  is_reconciled (set_line_transaction line0 20) = true /\
  fst (create_transaction (set_line_transaction line0 20) Expenses
         (snd (create_transaction line0 Expenses st0)))
    = inr (mkTransaction 23 5 EmptyString) /\
  lines (snd (create_transaction (set_line_transaction line0 20) Expenses
                (snd (create_transaction line0 Expenses st0))))
    = [set_line_transaction line0 23] /\
  List.length (transactions (snd (create_transaction (set_line_transaction line0 20) Expenses
                               (snd (create_transaction line0 Expenses st0))))) = 2%nat /\
  balance (snd (create_transaction line0 Expenses st0)) Bank None true [] = 5000 /\
  balance (snd (create_transaction (set_line_transaction line0 20) Expenses
                  (snd (create_transaction line0 Expenses st0)))) Bank None true [] = 10000.
Proof.
  split; [vm_compute; left; reflexivity|].
  repeat split; vm_compute; reflexivity.
Qed.

(** C3 (code defect): the [Leg] docstring says "All legs for a transaction
    must sum to zero", but no code checks it (only a TODO).  The legs
    [(Bank, 10.00)] and [(Sales, -9.00)] sum to 1.00, yet the block succeeds
    and persists transaction 20 and both legs, each referencing transaction
    20; the accounting-equation check then fails with a total of 1.00. *)
Lemma create_transaction_unbalanced_persisted :
  create_transaction_with_legs None None [(1%nat, 1000); (2%nat, -900)] st0 =
    (inr (mkTransaction 20 100 EmptyString), st_unbalanced) /\
  transactions st_unbalanced = [mkTransaction 20 100 EmptyString] /\
  map (fun l => (transaction l, account l, amount l)) (legs st_unbalanced) =
    [(20%nat, 1%nat, 1000); (20%nat, 2%nat, -900)] /\
  transaction_balance st_unbalanced (mkTransaction 20 100 EmptyString) = 100 /\
  fst (validate_accounting_equation st_unbalanced) =
    inl (AccountingEquationViolationError 100).
Proof. repeat split; vm_compute; reflexivity. Qed.

(** ** Further properties *)

(** [Leg.is_debit] and [Leg.is_credit] raise [ZeroAmountError] on a zero
    amount; otherwise exactly one of them holds, [is_debit] exactly when the
    amount is negative. *)
Theorem leg_is_debit_is_credit (l : Leg) :
  (amount l = 0 ->
     is_debit l = inl ZeroAmountError /\ is_credit l = inl ZeroAmountError) /\
  (amount l <> 0 ->
     exists b c, is_debit l = inr b /\ is_credit l = inr c /\ b = negb c /\
                 (b = true <-> amount l < 0)).
Proof.
  unfold is_debit, is_credit, leg_type.
  destruct (Z.ltb_spec (amount l) 0) as [Hn|Hn].
  - split; [intros; lia|]. intros _. do 2 eexists. repeat split; tauto.
  - destruct (amount l >? 0) eqn:Hp.
    + split; [intros H0; apply Z.gtb_lt in Hp; lia|]. intros _.
      do 2 eexists. split; [reflexivity|]. split; [reflexivity|].
      split; [reflexivity|]. split; intros H; [discriminate | lia].
    + split; [intros _; split; reflexivity|]. intros Hz.
      assert (amount l > 0) by lia.
      apply Z.gt_lt, Z.gtb_lt in H. congruence.
Qed.

Lemma leg_is_debit_is_credit_witness :
  amount (mkLeg 0 0 0 (-500) EmptyString) <> 0 /\
  exists b c, is_debit (mkLeg 0 0 0 (-500) EmptyString) = inr b /\
              is_credit (mkLeg 0 0 0 (-500) EmptyString) = inr c /\ b = negb c /\
              (b = true <-> amount (mkLeg 0 0 0 (-500) EmptyString) < 0).
Proof.
  split; [discriminate|].
  apply (proj2 (leg_is_debit_is_credit (mkLeg 0 0 0 (-500) EmptyString))).
  discriminate.
Defined.

Lemma string_append_assoc (x y z : string) :
  String.append (String.append x y) z = String.append x (String.append y z).
Proof. induction x as [|ch x IH]; simpl; [reflexivity|]. rewrite IH. reflexivity. Qed.

Lemma string_append_empty_r (x : string) : String.append x EmptyString = x.
Proof. induction x as [|ch x IH]; simpl; [reflexivity|]. rewrite IH. reflexivity. Qed.

Lemma concat_empty_fold (xs : list string) :
  String.concat EmptyString xs = fold_right String.append EmptyString xs.
Proof.
  induction xs as [|x xs IH]; [reflexivity|].
  destruct xs as [|y ys]; simpl.
  - symmetry. apply string_append_empty_r.
  - simpl in IH. rewrite IH. reflexivity.
Qed.

Lemma fold_append_app (xs ys : list string) :
  fold_right String.append EmptyString (xs ++ ys) =
  String.append (fold_right String.append EmptyString xs)
                (fold_right String.append EmptyString ys).
Proof.
  induction xs as [|x xs IH]; simpl; [reflexivity|].
  rewrite IH, string_append_assoc. reflexivity.
Qed.

(** [full_code]: an unsaved account has none; a saved root account's full
    code is its own code; a saved child account's full code is its parent's
    full code followed by its own code. *)
Theorem full_code_concatenates (st : Store) (c : Account) :
  tree_wf st -> In c (accounts st) ->
  (acc_pk c = 0%nat -> full_code st c = None) /\
  (acc_pk c <> 0%nat -> parent c = None -> full_code st c = Some (code c)) /\
  (forall p pa, acc_pk c <> 0%nat -> acc_pk pa <> 0%nat ->
     parent c = Some p -> find_account st p = Some pa ->
     full_code st c = option_map (fun s => String.append s (code c)) (full_code st pa)).
Proof.
  intros Hwf Hin. unfold full_code.
  split; [intros H0; rewrite H0; reflexivity|].
  split.
  - intros Hpk Hr. rewrite (proj2 (Nat.eqb_neq _ _) Hpk).
    unfold get_ancestors. destruct (level c); simpl; rewrite ?Hr; reflexivity.
  - intros p pa Hpk Hpk' Hp Hf.
    rewrite (proj2 (Nat.eqb_neq _ _) Hpk), (proj2 (Nat.eqb_neq _ _) Hpk'). simpl.
    pose proof (Hwf c Hin) as Hc. rewrite Hp in Hc.
    destruct Hc as (pa' & Hf' & Hl). rewrite Hf in Hf'. injection Hf' as <-.
    unfold get_ancestors. rewrite <- Hl. simpl. rewrite Hp, Hf.
    rewrite map_app, !concat_empty_fold, fold_append_app. simpl.
    rewrite string_append_empty_r. reflexivity.
Qed.

Lemma full_code_concatenates_witness :
  (tree_wf st0 /\ In Petty (accounts st0)) /\
  full_code st0 Petty = option_map (fun s => String.append s (code Petty)) (full_code st0 Bank) /\
  full_code st0 Petty = Some "11"%string.
Proof.
  split; [split; [exact st0_wf | simpl; tauto]|]. split.
  - apply (proj2 (proj2 (full_code_concatenates st0 Petty st0_wf ltac:(simpl; tauto))) 1%nat Bank);
      [discriminate | discriminate | reflexivity | reflexivity].
  - reflexivity.
Defined.

(** *** Sums over lists *)

Lemma sum_list_app (xs ys : list Z) :
  sum_list (xs ++ ys) = sum_list xs + sum_list ys.
Proof. induction xs as [|x xs IH]; simpl; [reflexivity|]. rewrite IH. lia. Qed.

Lemma sum_list_map_add {A} (f g : A -> Z) (xs : list A) :
  sum_list (map (fun x => f x + g x) xs) = sum_list (map f xs) + sum_list (map g xs).
Proof. induction xs as [|x xs IH]; simpl; [reflexivity|]. rewrite IH. lia. Qed.

Lemma sum_list_map_mul {A} (c : Z) (f : A -> Z) (xs : list A) :
  sum_list (map (fun x => c * f x) xs) = c * sum_list (map f xs).
Proof. induction xs as [|x xs IH]; simpl; [lia|]. rewrite IH. lia. Qed.

Lemma sum_list_map_filter {A} (p : A -> bool) (f : A -> Z) (xs : list A) :
  sum_list (map f (filter p xs)) = sum_list (map (fun x => if p x then f x else 0) xs).
Proof.
  induction xs as [|x xs IH]; simpl; [reflexivity|].
  destruct (p x); simpl; rewrite IH; lia.
Qed.

Lemma sum_list_map_ext_in {A} (f g : A -> Z) (xs : list A) :
  (forall x, In x xs -> f x = g x) -> sum_list (map f xs) = sum_list (map g xs).
Proof. intros H. f_equal. apply map_ext_in. exact H. Qed.

(** Summing over a table with unique keys, the terms selected by one key. *)
Lemma sum_list_select_unique (xs : list Account) (y : Account) (c : Account -> Z) :
  NoDup (map acc_pk xs) -> In y xs ->
  sum_list (map (fun d => if Nat.eqb (acc_pk d) (acc_pk y) then c d else 0) xs) = c y.
Proof.
  induction xs as [|x xs IH]; intros Hnd Hin; [destruct Hin|].
  simpl in Hnd. inversion Hnd as [|? ? Hnotin Hnd']; subst. simpl.
  destruct Hin as [->|Hin].
  - rewrite Nat.eqb_refl.
    rewrite (sum_list_map_zero _ xs); [lia|].
    intros d Hd. destruct (Nat.eqb_spec (acc_pk d) (acc_pk y)) as [E|E]; [|reflexivity].
    exfalso. apply Hnotin. rewrite <- E. apply in_map. exact Hd.
  - destruct (Nat.eqb_spec (acc_pk x) (acc_pk y)) as [E|E].
    + exfalso. apply Hnotin. rewrite E. apply in_map. exact Hin.
    + rewrite IH by assumption. lia.
Qed.

(** *** The account tree *)

Lemma unique_pks_eq (st : Store) (x y : Account) :
  unique_pks st -> In x (accounts st) -> In y (accounts st) ->
  acc_pk x = acc_pk y -> x = y.
Proof.
  unfold unique_pks. generalize (accounts st) as xs.
  induction xs as [|a xs IH]; intros Hnd Hx Hy E; [destruct Hx|].
  simpl in Hnd. inversion Hnd as [|? ? Hnotin Hnd']; subst.
  destruct Hx as [<-|Hx], Hy as [<-|Hy]; try reflexivity.
  - exfalso. apply Hnotin. rewrite E. apply in_map. exact Hy.
  - exfalso. apply Hnotin. rewrite <- E. apply in_map. exact Hx.
  - apply IH; assumption.
Qed.

Lemma find_account_in (st : Store) (p : nat) (pa : Account) :
  find_account st p = Some pa -> In pa (accounts st).
Proof. unfold find_account. intros H. apply find_some in H. tauto. Qed.

Lemma root_from_in (st : Store) (n : nat) (a : Account) :
  In a (accounts st) -> In (root_from st n a) (accounts st).
Proof.
  revert a. induction n as [|n IH]; intros a Ha; simpl; [exact Ha|].
  destruct (parent a) as [p|]; [|exact Ha].
  destruct (find_account st p) as [pa|] eqn:Hf; [|exact Ha].
  apply IH. apply (find_account_in st p pa Hf).
Qed.

Lemma root_from_root (st : Store) (n : nat) (a : Account) :
  parent a = None -> root_from st n a = a.
Proof. intros H. destruct n; simpl; rewrite ?H; reflexivity. Qed.

Lemma type_get_root (st : Store) (a : Account) :
  type st a = _type (get_root st a).
Proof.
  unfold type, get_root, is_root_node.
  destruct (parent a) eqn:E; [reflexivity|].
  rewrite root_from_root by exact E. reflexivity.
Qed.

(** The only root account whose key is in an account's ancestor chain is the
    account's root. *)
Lemma root_in_chain (st : Store) :
  tree_wf st -> unique_pks st ->
  forall n x r, In x (accounts st) -> level x = n -> In r (accounts st) ->
  is_root_node r && existsb (Nat.eqb (acc_pk r)) (ancestor_pks st n x) =
  Nat.eqb (acc_pk r) (acc_pk (root_from st n x)).
Proof.
  intros Hwf Hu n. induction n as [|n IH]; intros x r Hx Hl Hr.
  - pose proof (Hwf x Hx) as Hpx.
    destruct (parent x) as [p|] eqn:Ep; [destruct Hpx as (pa & _ & E); lia|].
    simpl. rewrite orb_false_r.
    destruct (Nat.eqb_spec (acc_pk r) (acc_pk x)) as [E|E]; [|apply andb_false_r].
    rewrite (unique_pks_eq st r x Hu Hr Hx E). unfold is_root_node. rewrite Ep. reflexivity.
  - pose proof (Hwf x Hx) as Hpx. simpl.
    destruct (parent x) as [p|] eqn:Ep.
    + destruct Hpx as (pa & Hf & Hlp). rewrite Hf.
      assert (Hpa : In pa (accounts st)) by exact (find_account_in st p pa Hf).
      destruct (Nat.eqb_spec (acc_pk r) (acc_pk x)) as [E|E].
      * rewrite (unique_pks_eq st r x Hu Hr Hx E). unfold is_root_node at 1. rewrite Ep.
        simpl. symmetry. apply Nat.eqb_neq. intros E'.
        assert (Hroot := root_from_is_root st Hwf n pa Hpa ltac:(lia)).
        rewrite <- (unique_pks_eq st x (root_from st n pa) Hu Hx
                      (root_from_in st n pa Hpa) E') in Hroot.
        unfold is_root_node in Hroot. rewrite Ep in Hroot. discriminate.
      * simpl. apply IH; [exact Hpa | lia | exact Hr].
    + simpl. rewrite orb_false_r.
      destruct (Nat.eqb_spec (acc_pk r) (acc_pk x)) as [E|E]; [|apply andb_false_r].
      rewrite (unique_pks_eq st r x Hu Hr Hx E). unfold is_root_node. rewrite Ep. reflexivity.
Qed.

Lemma root_multiplicity_in (st : Store) (x : Account) :
  tree_wf st -> unique_pks st -> In x (accounts st) ->
  root_multiplicity st (acc_pk x) = 1.
Proof.
  intros Hwf Hu Hx. unfold root_multiplicity, root_nodes, get_descendants.
  rewrite sum_list_map_filter.
  set (R := root_from st (level x) x).
  assert (HR : In R (accounts st)) by exact (root_from_in st (level x) x Hx).
  rewrite (sum_list_map_ext_in _ (fun r => if Nat.eqb (acc_pk r) (acc_pk R) then 1 else 0)).
  - apply (sum_list_select_unique _ R (fun _ => 1)); [exact Hu | exact HR].
  - intros r Hr. rewrite sum_list_map_filter.
    rewrite (sum_list_map_ext_in _
               (fun d => if Nat.eqb (acc_pk d) (acc_pk x)
                         then (if existsb (Nat.eqb (acc_pk r)) (ancestor_pks st (level d) d)
                               then 1 else 0) else 0)).
    + rewrite (sum_list_select_unique _ x
                 (fun d => if existsb (Nat.eqb (acc_pk r)) (ancestor_pks st (level d) d)
                           then 1 else 0) Hu Hx).
      pose proof (root_in_chain st Hwf Hu (level x) x r Hx eq_refl Hr) as Hc.
      fold R in Hc. rewrite <- Hc.
      destruct (is_root_node r); simpl; [reflexivity|].
      destruct (existsb _ _); reflexivity.
    + intros d _. destruct (existsb _ _), (Nat.eqb _ _); reflexivity.
Qed.

Lemma root_multiplicity_notin (st : Store) (k : nat) :
  (forall a, In a (accounts st) -> acc_pk a <> k) ->
  root_multiplicity st k = 0.
Proof.
  intros H. unfold root_multiplicity. apply sum_list_map_zero. intros r _.
  apply sum_list_map_zero. intros d Hd.
  unfold get_descendants in Hd. apply filter_In in Hd.
  rewrite (proj2 (Nat.eqb_neq _ _) (H d (proj1 Hd))). reflexivity.
Qed.

(** The accounting total counts each leg once per root above its account. *)
Lemma accounting_total_by_legs (st : Store) :
  accounting_total st =
  sum_list (map (fun l => amount l * root_multiplicity st (account l)) (legs st)).
Proof.
  unfold accounting_total, balance, simple_balance, account_legs, root_multiplicity.
  assert (Hb : forall ls : list Leg,
    sum_list (map (fun r => sum_list (map (fun d =>
        sum_list (map amount (filter (fun l => Nat.eqb (account l) (acc_pk d)) ls)))
        (get_descendants st r))) (root_nodes st)) =
    sum_list (map (fun l => amount l *
        sum_list (map (fun r => sum_list (map (fun d => if Nat.eqb (acc_pk d) (account l) then 1 else 0)
                                              (get_descendants st r)))
                      (root_nodes st))) ls)).
  { induction ls as [|l ls IH].
    - apply sum_list_map_zero. intros r _. apply sum_list_map_zero. intros d _. reflexivity.
    - simpl. rewrite <- IH.
      rewrite <- sum_list_map_mul, <- sum_list_map_add. apply sum_list_map_ext_in.
      intros r _. rewrite <- sum_list_map_mul, <- sum_list_map_add. apply sum_list_map_ext_in.
      intros d _. rewrite (Nat.eqb_sym (acc_pk d) (account l)).
      destruct (Nat.eqb (account l) (acc_pk d)); simpl; lia. }
  rewrite <- Hb. apply sum_list_map_ext_in. intros r _.
  apply sum_list_map_ext_in. intros d _.
  rewrite sum_amount_spec. lia.
Qed.

(** Reads that only look at the [Account] table. *)
Section SameAccounts.
Variables st st' : Store.
Hypothesis Hacc : accounts st' = accounts st.

Lemma find_account_same : find_account st' = find_account st.
Proof. unfold find_account. rewrite Hacc. reflexivity. Qed.

Lemma root_from_same (n : nat) (a : Account) : root_from st' n a = root_from st n a.
Proof.
  revert a. induction n as [|n IH]; intros a; simpl; [reflexivity|].
  rewrite find_account_same. destruct (parent a); [|reflexivity].
  destruct (find_account st _); [apply IH | reflexivity].
Qed.

Lemma ancestor_pks_same (n : nat) (a : Account) :
  ancestor_pks st' n a = ancestor_pks st n a.
Proof.
  revert a. induction n as [|n IH]; intros a; simpl; [reflexivity|].
  rewrite find_account_same. destruct (parent a); [|reflexivity].
  destruct (find_account st _); [rewrite IH|]; reflexivity.
Qed.

Lemma sign_same (a : Account) : sign st' a = sign st a.
Proof. unfold sign, type, get_root. rewrite root_from_same. reflexivity. Qed.

Lemma get_descendants_same (a : Account) :
  get_descendants st' a = get_descendants st a.
Proof.
  unfold get_descendants. rewrite Hacc. apply filter_ext. intros d.
  rewrite ancestor_pks_same. reflexivity.
Qed.

Lemma root_multiplicity_same (k : nat) :
  root_multiplicity st' k = root_multiplicity st k.
Proof.
  unfold root_multiplicity, root_nodes. rewrite Hacc.
  apply sum_list_map_ext_in. intros r _. rewrite get_descendants_same. reflexivity.
Qed.
End SameAccounts.

Lemma validate_fst (st : Store) :
  fst (validate_accounting_equation st) =
  if Z.eqb (accounting_total st) 0 then inr tt
  else inl (AccountingEquationViolationError (accounting_total st)).
Proof.
  unfold validate_accounting_equation, accounting_total, bind, get, ret, raise.
  destruct (Z.eqb _ 0); reflexivity.
Qed.

Lemma root_from_chain (st : Store) :
  tree_wf st -> unique_pks st ->
  forall n d a, In d (accounts st) -> level d = n -> In a (accounts st) ->
  existsb (Nat.eqb (acc_pk a)) (ancestor_pks st n d) = true ->
  root_from st n d = get_root st a.
Proof.
  intros Hwf Hu n. induction n as [|n IH]; intros d a Hd Hl Ha Hc; simpl in Hc.
  - rewrite orb_false_r in Hc. apply Nat.eqb_eq in Hc.
    rewrite (unique_pks_eq st a d Hu Ha Hd Hc). unfold get_root. rewrite Hl. reflexivity.
  - destruct (Nat.eqb_spec (acc_pk a) (acc_pk d)) as [E|E].
    + rewrite (unique_pks_eq st a d Hu Ha Hd E). unfold get_root. rewrite Hl. reflexivity.
    + simpl in Hc. pose proof (Hwf d Hd) as Hpd. simpl.
      destruct (parent d) as [p|]; [|discriminate].
      destruct Hpd as (pa & Hf & Hlp). rewrite Hf in *.
      apply IH; [exact (find_account_in st p pa Hf) | lia | exact Ha | exact Hc].
Qed.

Lemma get_root_descendant (st : Store) (a d : Account) :
  tree_wf st -> unique_pks st -> In a (accounts st) ->
  In d (get_descendants st a) -> get_root st d = get_root st a.
Proof.
  intros Hwf Hu Ha Hd. unfold get_descendants in Hd. apply filter_In in Hd.
  destruct Hd as [Hd Hc]. unfold get_root at 1.
  apply (root_from_chain st Hwf Hu (level d) d a Hd eq_refl Ha Hc).
Qed.

(** The total checked by [validate_accounting_equation] is the plain sum of
    the amounts of all legs posted to accounts of the table (in a
    well-formed tree with unique keys): each such account lies under exactly
    one root.  The check passes exactly when that sum is 0. *)
Theorem accounting_total_is_ledger_sum (st : Store) :
  tree_wf st -> unique_pks st ->
  sum_list (map (fun r => balance st r None true []) (root_nodes st)) =
    sum_list (map amount (filter (fun l => existsb (Nat.eqb (account l))
                                                   (map acc_pk (accounts st)))
                                 (legs st))) /\
  (fst (validate_accounting_equation st) = inr tt <->
   sum_list (map amount (filter (fun l => existsb (Nat.eqb (account l))
                                                  (map acc_pk (accounts st)))
                                (legs st))) = 0).
Proof.
  intros Hwf Hu.
  assert (E : accounting_total st =
    sum_list (map amount (filter (fun l => existsb (Nat.eqb (account l))
                                                   (map acc_pk (accounts st)))
                                 (legs st)))).
  { rewrite accounting_total_by_legs, sum_list_map_filter.
    apply sum_list_map_ext_in. intros l _.
    destruct (existsb (Nat.eqb (account l)) (map acc_pk (accounts st))) eqn:Ex.
    - apply existsb_exists in Ex. destruct Ex as (k & Hk & Ek).
      apply Nat.eqb_eq in Ek. apply in_map_iff in Hk. destruct Hk as (x & <- & Hx).
      rewrite Ek, (root_multiplicity_in st x Hwf Hu Hx). lia.
    - rewrite root_multiplicity_notin; [lia|].
      intros a Ha Hpk. rewrite <- Hpk in Ex.
      assert (existsb (Nat.eqb (acc_pk a)) (map acc_pk (accounts st)) = true) as Hin.
      { apply existsb_exists. exists (acc_pk a). split; [apply in_map; exact Ha|].
        apply Nat.eqb_refl. }
      congruence. }
  split; [exact E|].
  rewrite validate_fst, <- E.
  destruct (Z.eqb_spec (accounting_total st) 0); split; intros H;
    try reflexivity; try discriminate; try assumption; contradiction.
Qed.

Lemma accounting_total_is_ledger_sum_witness :
  (tree_wf st_unbalanced /\ unique_pks st_unbalanced) /\
  sum_list (map (fun r => balance st_unbalanced r None true []) (root_nodes st_unbalanced)) =
    sum_list (map amount (filter (fun l => existsb (Nat.eqb (account l))
                                                   (map acc_pk (accounts st_unbalanced)))
                                 (legs st_unbalanced))).
Proof.
  assert (Hwf : tree_wf st_unbalanced) by exact st0_wf.
  assert (Hu : unique_pks st_unbalanced) by (repeat constructor; simpl; lia).
  split; [split; assumption|].
  apply (proj1 (accounting_total_is_ledger_sum st_unbalanced Hwf Hu)).
Defined.

Lemma type_descendant (st : Store) (a d : Account) :
  tree_wf st -> unique_pks st -> In a (accounts st) ->
  In d (get_descendants st a) -> type st d = type st a.
Proof.
  intros Hwf Hu Ha Hd.
  rewrite !type_get_root, (get_root_descendant st a d Hwf Hu Ha Hd). reflexivity.
Qed.

(** In a well-formed tree every descendant of an account has the account's
    [type], hence its [sign]. *)
Theorem descendant_type_inherited (st : Store) (a d : Account) :
  tree_wf st -> unique_pks st -> In a (accounts st) ->
  In d (get_descendants st a) ->
  type st d = type st a /\ sign st d = sign st a.
Proof.
  intros Hwf Hu Ha Hd.
  assert (T := type_descendant st a d Hwf Hu Ha Hd).
  split; [exact T | unfold sign; rewrite T; reflexivity].
Qed.

Lemma descendant_type_inherited_witness :
  (tree_wf st0 /\ unique_pks st0 /\ In Bank (accounts st0) /\
   In Petty (get_descendants st0 Bank)) /\
  type st0 Petty = type st0 Bank /\ sign st0 Petty = sign st0 Bank.
Proof.
  assert (Hu : unique_pks st0) by (repeat constructor; simpl; lia).
  assert (Hd : In Petty (get_descendants st0 Bank)) by (simpl; tauto).
  split; [split; [exact st0_wf|]; split; [exact Hu|]; split; [simpl; tauto | exact Hd]|].
  apply (descendant_type_inherited st0 Bank Petty st0_wf Hu ltac:(simpl; tauto) Hd).
Defined.

(** The displayed balance ([raw=False]) of an account of a well-formed tree
    is the account's sign times its raw balance, for any [as_of] and
    filters: all of its descendants share its sign. *)
Theorem balance_displayed_is_signed_raw (st : Store) (a : Account) :
  tree_wf st -> unique_pks st -> In a (accounts st) ->
  forall as_of kwargs,
    balance st a as_of false kwargs = sign st a * balance st a as_of true kwargs.
Proof.
  intros Hwf Hu Ha as_of kwargs. unfold balance.
  rewrite <- sum_list_map_mul. apply sum_list_map_ext_in. intros d Hd.
  unfold simple_balance.
  unfold sign at 1. rewrite (type_descendant st a d Hwf Hu Ha Hd). fold (sign st a). lia.
Qed.

Lemma balance_displayed_is_signed_raw_witness :
  (tree_wf st_unbalanced /\ unique_pks st_unbalanced /\ In Bank (accounts st_unbalanced)) /\
  balance st_unbalanced Bank None false [] = sign st_unbalanced Bank * balance st_unbalanced Bank None true [].
Proof.
  assert (Hwf : tree_wf st_unbalanced) by exact st0_wf.
  assert (Hu : unique_pks st_unbalanced) by (repeat constructor; simpl; lia).
  assert (Ha : In Bank (accounts st_unbalanced)) by (simpl; tauto).
  split; [tauto|].
  apply (balance_displayed_is_signed_raw st_unbalanced Bank Hwf Hu Ha).
Defined.

Lemma transfer_to_eq (self to_account : Account) (amt : Z)
    (d : option Z) (desc : option string) (st : Store) :
  amt <> 0 ->
  let n := next_pk st in
  let direction := if Z.eqb (sign st to_account) 1 then -1 else 1 in
  let t := mkTransaction n (match d with Some x => x | None => today st end)
                         (match desc with Some s => s | None => EmptyString end) in
  transfer_to self to_account amt d desc st =
  (inr t,
   mkStore (accounts st) (transactions st ++ [t])
     (legs st ++ [mkLeg (S n) n (acc_pk self) (amt * direction) EmptyString;
                  mkLeg (S (S n)) n (acc_pk to_account) (- amt * direction) EmptyString])
     (imports st) (lines st) (S (S (S n))) (today st)).
Proof.
  intros Hamt n direction t.
  assert (Hd : direction = 1 \/ direction = -1)
    by (unfold direction; destruct (Z.eqb _ 1); auto).
  unfold transfer_to, atomic, bind, get, ret.
  rewrite transaction_create_eq. fold direction.
  rewrite leg_create_ok by (destruct Hd as [-> | ->]; lia).
  rewrite leg_create_ok by (destruct Hd as [-> | ->]; lia).
  simpl. rewrite <- app_assoc. reflexivity.
Qed.

(** Adding legs to the ledger, the accounts unchanged, adds their amounts
    (each counted by its root multiplicity) to the accounting total. *)
Lemma accounting_total_add_legs (st st' : Store) (new : list Leg) :
  accounts st' = accounts st -> legs st' = legs st ++ new ->
  accounting_total st' =
  accounting_total st + sum_list (map (fun l => amount l * root_multiplicity st (account l)) new).
Proof.
  intros Ha Hl. rewrite !accounting_total_by_legs, Hl, map_app, sum_list_app.
  f_equal; apply sum_list_map_ext_in; intros l _;
    rewrite (root_multiplicity_same st st' Ha); reflexivity.
Qed.

(** [transfer_to] between two accounts of a well-formed tree with unique keys
    leaves the total checked by [validate_accounting_equation] unchanged, so
    the check's outcome is the same before and after. *)
Theorem transfer_to_keeps_accounting_total (self to_account : Account) (amt : Z)
    (d : option Z) (desc : option string) (st : Store) :
  tree_wf st -> unique_pks st ->
  In self (accounts st) -> In to_account (accounts st) -> amt <> 0 ->
  exists t st',
    transfer_to self to_account amt d desc st = (inr t, st') /\
    sum_list (map (fun r => balance st' r None true []) (root_nodes st')) =
      sum_list (map (fun r => balance st r None true []) (root_nodes st)) /\
    fst (validate_accounting_equation st') = fst (validate_accounting_equation st).
Proof.
  intros Hwf Hu Hs Ht Hamt.
  rewrite (transfer_to_eq self to_account amt d desc st Hamt).
  do 2 eexists. split; [reflexivity|].
  match goal with |- context [root_nodes (mkStore ?a ?b ?c ?d ?e ?f ?g)] =>
    assert (E : accounting_total (mkStore a b c d e f g) = accounting_total st) end.
  { erewrite (accounting_total_add_legs st); [|reflexivity|reflexivity]. simpl.
    rewrite (root_multiplicity_in st self Hwf Hu Hs),
            (root_multiplicity_in st to_account Hwf Hu Ht). lia. }
  split; [exact E|]. rewrite !validate_fst, E. reflexivity.
Qed.

Lemma transfer_to_keeps_accounting_total_witness :
  (tree_wf st0 /\ unique_pks st0 /\ In Bank (accounts st0) /\ In Sales (accounts st0)) /\
  exists t st',
    transfer_to Bank Sales 10000 None None st0 = (inr t, st') /\
    sum_list (map (fun r => balance st' r None true []) (root_nodes st')) =
      sum_list (map (fun r => balance st0 r None true []) (root_nodes st0)) /\
    fst (validate_accounting_equation st') = fst (validate_accounting_equation st0).
Proof.
  assert (Hu : unique_pks st0) by (repeat constructor; simpl; lia).
  split; [split; [exact st0_wf|]; split; [exact Hu|]; split; simpl; tauto|].
  apply (transfer_to_keeps_accounting_total Bank Sales 10000 None None st0 st0_wf Hu);
    [simpl; tauto | simpl; tauto | discriminate].
Defined.

(** [StatementLine.create_transaction] into an account of a well-formed tree
    with unique keys, on a line whose import's bank account is in the table,
    leaves the total checked by [validate_accounting_equation] unchanged. *)
Theorem create_transaction_keeps_accounting_total (self : StatementLine)
    (to_account bank : Account) (si : StatementImport) (st : Store) :
  tree_wf st -> unique_pks st ->
  find_import st (statement_import self) = Some si ->
  In bank (accounts st) -> acc_pk bank = bank_account si ->
  In to_account (accounts st) -> sl_amount self <> 0 ->
  exists t st',
    create_transaction self to_account st = (inr t, st') /\
    sum_list (map (fun r => balance st' r None true []) (root_nodes st')) =
      sum_list (map (fun r => balance st r None true []) (root_nodes st)) /\
    fst (validate_accounting_equation st') = fst (validate_accounting_equation st).
Proof.
  intros Hwf Hu Hi Hb Hpk Ht Ha.
  rewrite (create_transaction_eq self to_account st si Hi Ha).
  do 2 eexists. split; [reflexivity|].
  match goal with |- context [root_nodes (mkStore ?a ?b ?c ?d ?e ?f ?g)] =>
    assert (E : accounting_total (mkStore a b c d e f g) = accounting_total st) end.
  { erewrite (accounting_total_add_legs st); [|reflexivity|reflexivity]. simpl.
    rewrite <- Hpk, (root_multiplicity_in st bank Hwf Hu Hb),
            (root_multiplicity_in st to_account Hwf Hu Ht). lia. }
  split; [exact E|]. rewrite !validate_fst, E. reflexivity.
Qed.

Lemma create_transaction_keeps_accounting_total_witness :
  (tree_wf st0 /\ unique_pks st0 /\
   find_import st0 (statement_import line0) = Some (mkStatementImport 10 1) /\
   In Bank (accounts st0) /\ In Expenses (accounts st0) /\ sl_amount line0 <> 0) /\
  exists t st',
    create_transaction line0 Expenses st0 = (inr t, st') /\
    sum_list (map (fun r => balance st' r None true []) (root_nodes st')) =
      sum_list (map (fun r => balance st0 r None true []) (root_nodes st0)) /\
    fst (validate_accounting_equation st') = fst (validate_accounting_equation st0).
Proof.
  assert (Hu : unique_pks st0) by (repeat constructor; simpl; lia).
  split.
  - split; [exact st0_wf|]. split; [exact Hu|]. split; [reflexivity|].
    split; [simpl; tauto|]. split; [simpl; tauto | discriminate].
  - apply (create_transaction_keeps_accounting_total line0 Expenses Bank
             (mkStatementImport 10 1) st0 st0_wf Hu);
      [reflexivity | simpl; tauto | reflexivity | simpl; tauto | discriminate].
Defined.

(** [transfer_to] of a nonzero amount between two different accounts raises
    the displayed balance ([raw=False]) of [to_account] by the amount; the
    displayed balance of the sending account falls by the amount when both
    accounts have the same sign and rises by it when their signs differ. *)
Theorem transfer_to_displayed_balances (self to_account : Account) (amt : Z)
    (d : option Z) (desc : option string) (st : Store) :
  acc_pk self <> acc_pk to_account -> amt <> 0 ->
  exists t st',
    transfer_to self to_account amt d desc st = (inr t, st') /\
    simple_balance st' to_account None false [] =
      simple_balance st to_account None false [] + amt /\
    simple_balance st' self None false [] =
      simple_balance st self None false [] +
      (if Z.eqb (sign st self) (sign st to_account) then - amt else amt).
Proof.
  intros Hne Hamt.
  rewrite (transfer_to_eq self to_account amt d desc st Hamt).
  do 2 eexists. split; [reflexivity|].
  unfold simple_balance, account_legs. simpl.
  match goal with |- context [sign (mkStore ?a1 ?b ?c ?d ?e ?f ?g) _] =>
    assert (Hs : forall x, sign (mkStore a1 b c d e f g) x = sign st x)
      by (intros x; apply sign_same; reflexivity);
    rewrite !Hs end.
  rewrite !filter_app, !sum_amount_spec, !map_app, !sum_list_app.
  simpl. rewrite !Nat.eqb_refl.
  rewrite (proj2 (Nat.eqb_neq _ _) Hne),
          (proj2 (Nat.eqb_neq _ _) (not_eq_sym Hne)).
  simpl. rewrite <- !sum_amount_spec.
  destruct (sign_cases st to_account) as [Ht|Ht], (sign_cases st self) as [Hf|Hf];
    rewrite Ht, Hf; simpl; split; lia.
Qed.

Lemma transfer_to_displayed_balances_witness :
  (acc_pk Bank <> acc_pk Sales /\ 10000 <> 0) /\
  exists t st',
    transfer_to Bank Sales 10000 None None st0 = (inr t, st') /\
    simple_balance st' Sales None false [] = simple_balance st0 Sales None false [] + 10000 /\
    simple_balance st' Bank None false [] =
      simple_balance st0 Bank None false [] +
      (if Z.eqb (sign st0 Bank) (sign st0 Sales) then - 10000 else 10000).
Proof.
  split; [split; discriminate|].
  apply transfer_to_displayed_balances; discriminate.
Defined.

(** [StatementLine.create_transaction] on a line of amount 0, or whose
    statement import does not exist, raises ([ZeroAmountError], resp.
    [DoesNotExist]) and leaves the store as it was: no transaction, no leg,
    and the line still unreconciled. *)
Theorem create_transaction_failure_rolls_back (self : StatementLine)
    (to_account : Account) (st : Store) :
  (find_import st (statement_import self) = None ->
     create_transaction self to_account st = (inl DoesNotExist, st)) /\
  (sl_amount self = 0 -> (exists si, find_import st (statement_import self) = Some si) ->
     create_transaction self to_account st = (inl ZeroAmountError, st)).
Proof.
  split.
  - intros Hi. unfold create_transaction, atomic, bind, get. rewrite Hi. reflexivity.
  - intros Ha [si Hi]. unfold create_transaction, atomic, bind, get, ret.
    rewrite Hi, transaction_create_eq, Ha. reflexivity.
Qed.

Lemma create_transaction_failure_rolls_back_witness :
  (sl_amount (mkStatementLine 11 5 10 0 EmptyString None) = 0 /\
   exists si, find_import st0 (statement_import (mkStatementLine 11 5 10 0 EmptyString None)) = Some si) /\
  create_transaction (mkStatementLine 11 5 10 0 EmptyString None) Expenses st0 =
    (inl ZeroAmountError, st0).
Proof.
  assert (H : exists si, find_import st0
             (statement_import (mkStatementLine 11 5 10 0 EmptyString None)) = Some si)
    by (eexists; reflexivity).
  split; [split; [reflexivity | exact H]|].
  apply (proj2 (create_transaction_failure_rolls_back
                  (mkStatementLine 11 5 10 0 EmptyString None) Expenses st0)); [reflexivity | exact H].
Defined.
